(** * The build and response configuration layer of the site (next.config.js)

    The module evaluates one object literal, [nextConfig], and exports it.
    Two of its properties are functions: the [async headers()] method and the
    [webpack] hook, which pushes a [DefinePlugin] instance onto the plugin
    array of the bundler configuration it is handed.

    JavaScript objects, arrays and functions are reference values, and the
    hook mutates an array it does not own.  The embedding therefore keeps an
    explicit store of cells and threads it through every evaluation. *)

From Stdlib Require Import Ascii String.
From stdpp Require Import base strings gmap list.

Local Open Scope string_scope.

(** ** Values, cells and the store *)

Abbreviation loc := positive.

(** Primitive values are immediate; everything else is a reference. *)
Inductive val : Type :=
| VUndefined
| VNull
| VBool (b : bool)
| VNum (z : Z)
| VStr (s : string)
| VRef (l : loc).

(** The function objects this module creates. *)
Inductive func : Type :=
| fn_headers
| fn_webpack.

(** A store cell.  An object carries the name of its constructor
    ("Object" for a literal) and its own data properties.  An array is
    either an ordinary one or one that takes no new element (frozen,
    sealed, or otherwise not extensible). *)
Inductive cell : Type :=
| CObj (cls : string) (props : gmap string val)
| CArr (elems : list val)
| CFrozenArr (elems : list val)
| CFun (f : func).

Inductive error : Type :=
| TypeError (msg : string)
| ModuleNotFound (name : string)
| InvalidConfig (msg : string).

(** Outcome of evaluating a call: a result, or a thrown exception. *)
Inductive completion (A : Type) : Type :=
| Normal (a : A)
| Throw (e : error).
Arguments Normal {A} a.
Arguments Throw {A} e.

(** State of the promise an [async] function hands back at the moment the
    call returns. *)
Inductive promise : Type :=
| Pending
| Fulfilled (v : val)
| Rejected (e : error).

#[global] Instance val_eq_dec : EqDecision val.
Proof. solve_decision. Defined.
#[global] Instance func_eq_dec : EqDecision func.
Proof. solve_decision. Defined.
#[global] Instance cell_eq_dec : EqDecision cell.
Proof. solve_decision. Defined.
#[global] Instance error_eq_dec : EqDecision error.
Proof. solve_decision. Defined.

Abbreviation heap := (gmap loc cell).

(** Computations over the store. *)
Definition St (A : Type) : Type := heap → A * heap.

Definition ret {A} (a : A) : St A := λ h, (a, h).

Definition bind {A B} (m : St A) (k : A → St B) : St B :=
  λ h, let '(a, h') := m h in k a h'.

Notation "'let*' x ':=' m 'in' k" := (bind m (λ x, k))
  (at level 10, x name, m at level 100, k at level 200).

(** Creating an object, array or function: a location the store does not
    use yet receives the cell. *)
Definition alloc (c : cell) : St loc :=
  λ h, let l := fresh (dom h) in (l, <[l := c]> h).

(** ** Reading the store *)

(** [o.k] on an operand that is neither [undefined] nor [null]: own data
    properties of objects; arrays, functions and primitives have none of the
    names used here, and an absent property reads as [undefined]. *)
Definition get (h : heap) (o : val) (k : string) : val :=
  match o with
  | VRef l =>
      match h !! l with
      | Some (CObj _ props) => default VUndefined (props !! k)
      | _ => VUndefined
      end
  | _ => VUndefined
  end.

(** [Object.keys(o)] as a set. *)
Definition own_keys (h : heap) (o : val) : option (gset string) :=
  match o with
  | VRef l =>
      match h !! l with
      | Some (CObj _ props) => Some (dom props)
      | _ => None
      end
  | _ => None
  end.

Definition as_string (v : val) : option string :=
  match v with VStr s => Some s | _ => None end.

Definition as_array (h : heap) (v : val) : option (list val) :=
  match v with
  | VRef l =>
      match h !! l with
      | Some (CArr elems) | Some (CFrozenArr elems) => Some elems
      | _ => None
      end
  | _ => None
  end.

Definition as_func (h : heap) (v : val) : option func :=
  match v with
  | VRef l => match h !! l with Some (CFun f) => Some f | _ => None end
  | _ => None
  end.

(** An array all of whose elements are strings. *)
Definition read_strings (h : heap) (v : val) : option (list string) :=
  elems ← as_array h v; mapM as_string elems.

(** ** Library functions the module calls *)

(** [JSON.stringify] on a boolean. *)
Definition JSON_stringify (b : bool) : val :=
  VStr (if b then "true" else "false").

(** [new webpack.DefinePlugin(definitions)]: the constructor stores its
    argument in [this.definitions]. *)
Definition new_DefinePlugin (definitions : val) : St val :=
  let* p := alloc (CObj "DefinePlugin" {[ "definitions" := definitions ]}) in
  ret (VRef p).

(** ** The module *)

(** The body of [async headers()].  It has no [await]: the array literal is
    built and the promise is fulfilled with it when the call returns.
    Cells are created innermost first; locations are names only. *)
Definition headers : St promise :=
  let* coep := alloc (CObj "Object"
      {[ "key" := VStr "Cross-Origin-Embedder-Policy";
         "value" := VStr "unsafe-none" ]}) in
  let* coop := alloc (CObj "Object"
      {[ "key" := VStr "Cross-Origin-Opener-Policy";
         "value" := VStr "same-origin-allow-popups" ]}) in
  let* hs := alloc (CArr [VRef coep; VRef coop]) in
  let* rule := alloc (CObj "Object"
      {[ "source" := VStr "/(.*)"; "headers" := VRef hs ]}) in
  let* rules := alloc (CArr [VRef rule]) in
  ret (Fulfilled (VRef rules)).

(** The object literal handed to [DefinePlugin] by the hook. *)
Definition vue_feature_flags : St val :=
  let* d := alloc (CObj "Object"
      {[ "__VUE_OPTIONS_API__" := JSON_stringify true;
         "__VUE_PROD_DEVTOOLS__" := JSON_stringify false;
         "__VUE_PROD_HYDRATION_MISMATCH_DETAILS__" := JSON_stringify false ]}) in
  ret (VRef d).

Definition nullish (v : val) : bool :=
  match v with VUndefined | VNull => true | _ => false end.

(** What a call hands back: a plain result, the promise of an [async]
    function, or an exception. *)
Inductive outcome : Type :=
| Returned (v : val)
| Promised (p : promise)
| Thrown (e : error).

(** [target.push(item)], a method call on whatever [target] is.

    - On an ordinary array it is [Array.prototype.push]: the element is
      appended and the new length returned.  An array that takes no new
      element makes it throw.
    - On an object, the own property [push] is read and called with [item]
      as its only argument.  The functions of this store are the two of
      this module: [headers] ignores the argument and returns its promise;
      the hook, called with one argument only, throws when it binds
      [{ isServer }] (see [push_calls_the_property] below).
    - Anything else has no [push] to call. *)
Definition push (target item : val) : St outcome :=
  λ h,
    match target with
    | VRef a =>
        match h !! a with
        | Some (CArr elems) =>
            (Returned (VNum (Z.of_nat (length elems) + 1)),
             <[a := CArr (elems ++ [item])]> h)
        | Some (CFrozenArr _) =>
            (Thrown (TypeError "Cannot add property, object is not extensible"), h)
        | Some (CObj _ props) =>
            match as_func h (default VUndefined (props !! "push")) with
            | Some fn_headers => let '(p, h') := headers h in (Promised p, h')
            | Some fn_webpack =>
                (Thrown (TypeError "Cannot destructure property 'isServer'"), h)
            | None =>
                (Thrown (TypeError "config.plugins.push is not a function"), h)
            end
        | _ => (Thrown (TypeError "config.plugins.push is not a function"), h)
        end
    | _ => (Thrown (TypeError "config.plugins.push is not a function"), h)
    end.

(** [webpack: (config, { isServer }) => { config.plugins.push(new
    webpack.DefinePlugin({...})); return config; }]

    - binding [{ isServer }] throws on [undefined] and [null];
    - [config.plugins] throws when [config] is [undefined] or [null];
    - [.push] throws when [config.plugins] is [undefined] or [null], before
      the argument is evaluated;
    - otherwise the argument is evaluated (two cells are created) and
      [push] is called. *)
Definition webpack (config options : val) : St (completion val) :=
  λ h,
    if nullish options then
      (Throw (TypeError "Cannot destructure property 'isServer'"), h)
    else
      let isServer := get h options "isServer" in
      if nullish config then
        (Throw (TypeError "Cannot read properties of undefined (reading 'plugins')"), h)
      else
        let plugins := get h config "plugins" in
        if nullish plugins then
          (Throw (TypeError "Cannot read properties of undefined (reading 'push')"), h)
        else
          let '(defs, h1) := vue_feature_flags h in
          let '(plugin, h2) := new_DefinePlugin defs h1 in
          match push plugins plugin h2 with
          | (Thrown e, h3) => (Throw e, h3)
          | (_, h3) => (Normal config, h3)
          end.

(** [const nextConfig = { ... }; module.exports = nextConfig;] *)
Definition nextConfig : St val :=
  let* eslint := alloc (CObj "Object" {[ "ignoreDuringBuilds" := VBool true ]}) in
  let* domains := alloc (CArr [VStr "n8n2.ibhost.online"]) in
  let* images := alloc (CObj "Object"
      {[ "unoptimized" := VBool true; "domains" := VRef domains ]}) in
  let* headers_fn := alloc (CFun fn_headers) in
  let* packages := alloc (CArr [VStr "@n8n/chat"]) in
  let* experimental := alloc (CObj "Object"
      {[ "serverComponentsExternalPackages" := VRef packages ]}) in
  let* webpack_fn := alloc (CFun fn_webpack) in
  let* cfg := alloc (CObj "Object"
      {[ "eslint" := VRef eslint;
         "images" := VRef images;
         "headers" := VRef headers_fn;
         "experimental" := VRef experimental;
         "webpack" := VRef webpack_fn ]}) in
  ret (VRef cfg).

(** [const webpack = require('webpack');] runs before the literal is
    evaluated; when the package cannot be resolved the module throws and
    nothing is exported. *)
Definition module_exports (webpack_resolves : bool) : St (completion val) :=
  if webpack_resolves then
    let* cfg := nextConfig in ret (Normal cfg)
  else ret (Throw (ModuleNotFound "webpack")).

(** ** How the framework uses the exported object

    The framework and the bundler are dependencies of the site.  What
    follows records their documented reading of the properties this module
    sets: how the two functions are called, how a route source is matched
    against a request path, what the lint flag and a [DefinePlugin] do. *)

(** Calling a function object with an argument list; missing arguments are
    [undefined]. *)
Definition apply_func (f : func) (args : list val) : St outcome :=
  match f with
  | fn_headers => let* p := headers in ret (Promised p)
  | fn_webpack =>
      let* r := webpack (nth 0 args VUndefined) (nth 1 args VUndefined) in
      ret (match r with Normal v => Returned v | Throw e => Thrown e end)
  end.

(** [cfg.name(args)] *)
Definition call_method (cfg : val) (name : string) (args : list val) : St outcome :=
  λ h, match as_func h (get h cfg name) with
       | Some f => apply_func f args h
       | None => (Thrown (TypeError (name +:+ " is not a function")), h)
       end.

(** The two calls the framework makes on the configuration. *)
Inductive op : Type :=
| OpHeaders
| OpWebpack (config options : val).

Definition run_op (cfg : val) (o : op) : St outcome :=
  match o with
  | OpHeaders => call_method cfg "headers" []
  | OpWebpack config options => call_method cfg "webpack" [config; options]
  end.




Module Route.
Record Header : Type := { key : string; value : string }.
Record Rule : Type := { source : string; headers : list Header }.
End Route.

(** Typed view of what [headers()] resolved to. *)
Definition read_header (h : heap) (v : val) : option Route.Header :=
  k ← as_string (get h v "key");
  x ← as_string (get h v "value");
  Some {| Route.key := k; Route.value := x |}.

Definition read_rule (h : heap) (v : val) : option Route.Rule :=
  s ← as_string (get h v "source");
  hs ← as_array h (get h v "headers");
  hs' ← mapM (read_header h) hs;
  Some {| Route.source := s; Route.headers := hs' |}.

Definition read_rules (h : heap) (v : val) : option (list Route.Rule) :=
  rs ← as_array h v; mapM (read_rule h) rs.

(** Typed view of the definitions a [DefinePlugin] instance holds. *)
Definition as_object (h : heap) (cls : string) (v : val) : option (gmap string val) :=
  match v with
  | VRef l =>
      match h !! l with
      | Some (CObj c props) => if decide (c = cls) then Some props else None
      | _ => None
      end
  | _ => None
  end.

Definition read_definitions (h : heap) (plugin : val) : option (gmap string string) :=
  match as_object h "DefinePlugin" plugin with
  | Some p =>
      match as_object h "Object" (default VUndefined (p !! "definitions")) with
      | Some d =>
          if bool_decide (map_Forall (λ (_ : string) v, is_Some (as_string v)) d)
          then Some (omap as_string d) else None
      | None => None
      end
  | None => None
  end.

Definition as_bool (v : val) : option bool :=
  match v with VBool b => Some b | _ => None end.

(** Typed view of the static settings of the exported object, as the
    framework reads them.  [output] is [None] when the property is absent. *)
Record Settings : Type := {
  ignoreDuringBuilds : bool;
  unoptimized : bool;
  domains : list string;
  serverComponentsExternalPackages : list string;
  output : option string
}.

Definition read_settings (h : heap) (cfg : val) : option Settings :=
  i ← as_bool (get h (get h cfg "eslint") "ignoreDuringBuilds");
  u ← as_bool (get h (get h cfg "images") "unoptimized");
  d ← read_strings h (get h (get h cfg "images") "domains");
  p ← read_strings h
        (get h (get h cfg "experimental") "serverComponentsExternalPackages");
  Some {| ignoreDuringBuilds := i; unoptimized := u; domains := d;
          serverComponentsExternalPackages := p;
          output := as_string (get h cfg "output") |}.

(** Model of the framework, whose code is not part of this repository.  The lint step
    of a production build: skipped when
    [eslint.ignoreDuringBuilds] is set, otherwise any lint error stops the
    build.  The result tells whether the build goes on. *)
Definition lint_step (s : Settings) (lint_errors : nat) : bool :=
  ignoreDuringBuilds s || bool_decide (lint_errors = 0).

(** *** Route sources

    Model of the framework, whose code is not part of this repository.  The fragment
    of the route-source syntax the module uses: literal
    characters and the unnamed wildcard group (a dot and a star in
    parentheses).  A group matches any run of characters other than line
    terminators, as [.] does in a JavaScript regular expression; the whole
    path has to be consumed. *)
Module PathPattern.

Inductive token : Type :=
| Lit (c : ascii)
| AnyGroup.

Definition reserved (c : ascii) : bool :=
  bool_decide (c ∈ ["("; ")"; ":"; "*"; "+"; "?"; "{"; "}"; "092"]%char).

Fixpoint tokens (s : list ascii) : option (list token) :=
  match s with
  | [] => Some []
  | "("%char :: "."%char :: "*"%char :: ")"%char :: rest =>
      cons AnyGroup <$> tokens rest
  | c :: rest =>
      if reserved c then None else cons (Lit c) <$> tokens rest
  end.

Definition compile (source : string) : option (list token) :=
  tokens (list_ascii_of_string source).

Definition line_terminator (c : ascii) : bool :=
  bool_decide (c = "010"%char) || bool_decide (c = "013"%char).

Fixpoint matches_from (ts : list token) (p : list ascii) : bool :=
  match ts with
  | [] => bool_decide (p = [])
  | Lit c :: ts' =>
      match p with
      | c' :: p' => bool_decide (c = c') && matches_from ts' p'
      | [] => false
      end
  | AnyGroup :: ts' =>
      (fix star (p : list ascii) : bool :=
         matches_from ts' p
         || match p with
            | c :: p' => negb (line_terminator c) && star p'
            | [] => false
            end) p
  end.

Definition matches (ts : list token) (path : string) : bool :=
  matches_from ts (list_ascii_of_string path).

End PathPattern.

(** A request path: it starts with a slash and, being part of a request
    line, holds no line terminator. *)
Definition is_request_path (path : string) : bool :=
  match list_ascii_of_string path with
  | "/"%char :: rest => forallb (λ c, negb (PathPattern.line_terminator c)) rest
  | _ => false
  end.

Definition applies (r : Route.Rule) (path : string) : bool :=
  match PathPattern.compile (Route.source r) with
  | Some ts => PathPattern.matches ts path
  | None => false
  end.

(** Model of the framework, whose code is not part of this repository:
    [res.setHeader(key, value)] for each header of a rule, in order. *)
Definition set_headers (res : gmap string string) (hs : list Route.Header)
  : gmap string string :=
  foldl (λ acc hd, <[Route.key hd := Route.value hd]> acc) res hs.

(** Model of the framework, whose code is not part of this repository: the headers of
    the rules that apply to [path], set in the order of the rules. *)
Definition response_headers (rules : list Route.Rule) (path : string)
  : gmap string string :=
  foldl (λ res r, if applies r path then set_headers res (Route.headers r) else res)
        ∅ rules.

Definition check_rules (rules : list Route.Rule) : bool :=
  forallb (λ r, bool_decide (is_Some (PathPattern.compile (Route.source r)))) rules.

(** *** Redirects

    Model of the framework, whose code is not part of this repository.  Before the
    header rules are consulted, a path that holds a backslash or two slashes
    in a row is answered with a permanent redirect (status 308) to its
    cleaned form, and so is a path other than "/" that ends in a slash.  The
    redirect carries none of the headers of the rules. *)
Fixpoint repeated_slash_or_backslash (p : list ascii) : bool :=
  match p with
  | [] => false
  | c :: rest =>
      bool_decide (c = "092"%char)
      || (bool_decide (c = "/"%char)
          && match rest with
             | c' :: _ => bool_decide (c' = "/"%char)
             | [] => false
             end)
      || repeated_slash_or_backslash rest
  end.

Definition trailing_slash (p : list ascii) : bool :=
  match p with
  | [] | [_] => false
  | _ => bool_decide (last p = Some "/"%char)
  end.

Definition redirected (path : string) : bool :=
  repeated_slash_or_backslash (list_ascii_of_string path)
  || trailing_slash (list_ascii_of_string path).

(** Model of the framework, whose code is not part of this repository: start-up
    followed by one request.  The module is loaded, [headers()] is awaited,
    its rules are validated, and the request for [path] is answered.
    [Responds hs] is a response on which this layer has set the headers
    [hs]; on a redirect it has set none. *)
Inductive served : Type :=
| Responds (hs : gmap string string)
| Fails (e : error)
| Waits.

Definition serve (webpack_resolves : bool) (path : string) (h : heap) : served :=
  match module_exports webpack_resolves h with
  | (Throw e, _) => Fails e
  | (Normal cfg, h1) =>
      match run_op cfg OpHeaders h1 with
      | (Promised (Fulfilled v), h2) =>
          match read_rules h2 v with
          | Some rules =>
              if check_rules rules then
                Responds (if redirected path then ∅
                          else response_headers rules path)
              else Fails (InvalidConfig "invalid route source")
          | None => Fails (InvalidConfig "headers() must resolve to an array of rules")
          end
      | (Promised (Rejected e), _) => Fails e
      | (Promised Pending, _) => Waits
      | (Returned _, _) => Fails (InvalidConfig "headers() must resolve to an array of rules")
      | (Thrown e, _) => Fails e
      end
  end.

(** *** Constant injection

    Model of the bundler, whose code is not part of this repository.  What it does
    with a [DefinePlugin]: every free occurrence of a
    defined identifier in a module is replaced by the code fragment given
    for it. *)
Inductive lexeme : Type :=
| FreeIdent (name : string)
| Code (text : string).

Definition define (defs : gmap string string) (l : lexeme) : lexeme :=
  match l with
  | FreeIdent x => match defs !! x with Some c => Code c | None => l end
  | Code _ => l
  end.

Definition inline_definitions (defs : gmap string string) (src : list lexeme)
  : list lexeme :=
  define defs <$> src.

(** The boolean a code fragment denotes, when it is a boolean literal. *)
Definition bool_literal (code : string) : option bool :=
  if decide (code = "true") then Some true
  else if decide (code = "false") then Some false
  else None.

(** The plugin most recently pushed onto the plugin array of [config]. *)
Definition last_plugin (h : heap) (config : val) : option val :=
  as_array h (get h config "plugins") ≫= last.

(** ** Expected readings *)

Definition header_rules : list Route.Rule :=
  [ {| Route.source := "/(.*)";
       Route.headers :=
         [ {| Route.key := "Cross-Origin-Embedder-Policy";
              Route.value := "unsafe-none" |};
           {| Route.key := "Cross-Origin-Opener-Policy";
              Route.value := "same-origin-allow-popups" |} ] |} ].

Definition policy_headers : gmap string string :=
  {[ "Cross-Origin-Embedder-Policy" := "unsafe-none";
     "Cross-Origin-Opener-Policy" := "same-origin-allow-popups" ]}.

Definition feature_flags : gmap string string :=
  {[ "__VUE_OPTIONS_API__" := "true";
     "__VUE_PROD_DEVTOOLS__" := "false";
     "__VUE_PROD_HYDRATION_MISMATCH_DETAILS__" := "false" ]}.

Definition static_settings : Settings :=
  {| ignoreDuringBuilds := true;
     unoptimized := true;
     domains := ["n8n2.ibhost.online"];
     serverComponentsExternalPackages := ["@n8n/chat"];
     output := None |}.

(** The exported object, the store right after the module has been
    evaluated over [h], and the cells that evaluation created. *)
Definition exported (h : heap) : val := (nextConfig h).1.
Definition loaded (h : heap) : heap := (nextConfig h).2.
Definition config_cells (h : heap) : gset loc := dom (loaded h) ∖ dom h.

(** The definitions held by the plugin last pushed onto [config.plugins]. *)
Definition flags_after (h : heap) (config : val) : option (gmap string string) :=
  last_plugin h config ≫= read_definitions h.


(** The store after [n] hook calls in a row with the same arguments, as
    when one configuration object goes through several compilations. *)
Definition hook_calls (n : nat) (config options : val) (h : heap) : heap :=
  Nat.iter n (λ h', (webpack config options h').2) h.

(** The cell [c] holds a reference to the location [r]. *)
Definition refers (c : cell) (r : loc) : Prop :=
  match c with
  | CObj _ props => ∃ k, props !! k = Some (VRef r)
  | CArr elems | CFrozenArr elems => VRef r ∈ elems
  | CFun _ => False
  end.

Definition exported_fields : gset string :=
  {[ "eslint"; "images"; "headers"; "experimental"; "webpack" ]}.

(** A store as the hook finds it during a build: a bundler configuration
    at 1 whose plugin array at 2 already holds the plugin at 4, and the
    options object at 3. *)
Definition sample_store : heap :=
  {[ 1%positive := CObj "Object"
                     {[ "mode" := VStr "production"; "plugins" := VRef 2 ]};
     2%positive := CArr [VRef 4];
     3%positive := CObj "Object" {[ "isServer" := VBool true ]};
     4%positive := CObj "ProgressPlugin" ∅ ]}.



(** Two stores hold the same cells at the locations of [X]. *)
Definition agree_on (X : gset loc) (h1 h2 : heap) : Prop :=
  ∀ l, l ∈ X → h2 !! l = h1 !! l.

(** ** Allocation *)

Lemma fresh_lookup (h : heap) : h !! fresh (dom h) = None.
Proof. apply not_elem_of_dom, is_fresh. Qed.

(** Name, innermost first, every location a run of allocations picked, and
    record that the locations are new and pairwise distinct. *)
Ltac name_alloc :=
  match goal with
  | |- context [fresh (dom ?m)] =>
      lazymatch m with
      | context [fresh] => fail
      | _ =>
          let l := fresh "l" in
          let Hl := fresh "Hl" in
          pose proof (fresh_lookup m) as Hl;
          generalize dependent (fresh (dom m)); intros l Hl;
          repeat (rewrite lookup_insert_None in Hl;
                  let Hne := fresh "Hne" in destruct Hl as [Hl Hne])
      end
  end.

Ltac differ :=
  solve [ assumption | apply not_eq_sym; assumption | discriminate ].

(** Resolve lookups in a store, or in the properties of an object, built by
    insertions at keys known to differ. *)
Ltac heap_lookup :=
  repeat first
    [ rewrite lookup_insert_eq
    | rewrite lookup_insert_ne by differ
    | rewrite lookup_singleton_eq
    | rewrite lookup_singleton_ne by differ
    | match goal with E : _ !! _ = Some _ |- _ => rewrite E end
    | progress simpl ].

Ltac run_allocs :=
  cbv [bind ret alloc new_DefinePlugin vue_feature_flags]; repeat name_alloc.

(** A cell allocated over [h] and still present in [h1] is unchanged in any
    store that agrees with [h1] on the new cells. *)
Lemma agree_on_new (h h1 h2 : heap) (l : loc) (c : cell) :
  agree_on (dom h1 ∖ dom h) h1 h2 → h !! l = None → h1 !! l = Some c →
  h2 !! l = Some c.
Proof.
  intros Hag Hl Hc. rewrite <- Hc. apply Hag.
  apply elem_of_difference. split.
  - apply elem_of_dom. eauto.
  - by apply not_elem_of_dom.
Qed.

Ltac transfer Hag :=
  repeat match goal with
    | Hl : ?h !! ?l = None |- _ =>
        let E := fresh "E" in
        pose proof (λ c, agree_on_new _ _ _ l c Hag Hl) as E;
        revert E; heap_lookup; intros E;
        specialize (E _ eq_refl); clear Hl
    end.

Lemma nextConfig_reads (h : heap) :
  h ⊆ loaded h ∧
  ∀ h2, agree_on (config_cells h) (loaded h) h2 →
    read_settings h2 (exported h) = Some static_settings ∧
    own_keys h2 (exported h)
      = Some {[ "eslint"; "images"; "headers"; "experimental"; "webpack" ]} ∧
    get h2 (exported h) "output" = VUndefined ∧
    as_func h2 (get h2 (exported h) "headers") = Some fn_headers ∧
    as_func h2 (get h2 (exported h) "webpack") = Some fn_webpack.
Proof.
  unfold config_cells, loaded, exported, nextConfig. run_allocs. simpl.
  split.
  { repeat (etrans; [|apply insert_subseteq; heap_lookup; done]). done. }
  intros h2 Hag. transfer Hag.
  unfold read_settings, read_strings, own_keys, as_func, as_array, get.
  heap_lookup. repeat split.
Qed.

Lemma agree_on_refl (X : gset loc) (h : heap) : agree_on X h h.
Proof. by intros l _. Qed.


(** ** The two functions over an arbitrary store *)

Lemma headers_reads (h : heap) :
  ∃ v h', headers h = (Fulfilled v, h') ∧ h ⊆ h' ∧
    read_rules h' v = Some header_rules.
Proof.
  unfold headers. run_allocs.
  eexists _, _. split; [reflexivity|].
  split.
  { repeat (etrans; [|apply insert_subseteq; heap_lookup; done]). done. }
  unfold read_rules, read_rule, read_header, as_array, get.
  heap_lookup. reflexivity.
Qed.

Lemma get_ref (h : heap) (o : val) (k : string) (a : loc) :
  get h o k = VRef a →
  ∃ c cls props, o = VRef c ∧ h !! c = Some (CObj cls props) ∧
    props !! k = Some (VRef a).
Proof.
  unfold get. destruct o as [| | | | |c]; try discriminate.
  destruct (h !! c) as [[cls props| | |]|] eqn:Hc; try discriminate.
  destruct (props !! k) as [v|] eqn:Hk; simpl; [|discriminate].
  intros ->. eauto 6.
Qed.


(** *** The push call *)

Arguments push : simpl never.

Lemma push_array (h : heap) (a : loc) (elems : list val) (item : val) :
  h !! a = Some (CArr elems) →
  push (VRef a) item h
  = (Returned (VNum (Z.of_nat (length elems) + 1)),
     <[a := CArr (elems ++ [item])]> h).
Proof. intros Ha. unfold push. by rewrite Ha. Qed.



(** The function an object holds as [push] is called with the pushed value
    as its only argument. *)
Lemma push_calls_the_property (h : heap) (a : loc) (cls : string)
    (props : gmap string val) (f : func) (item : val) :
  h !! a = Some (CObj cls props) →
  as_func h (default VUndefined (props !! "push")) = Some f →
  push (VRef a) item h = apply_func f [item] h.
Proof.
  intros Ha Hf. unfold push. rewrite Ha, Hf.
  destruct f; unfold apply_func, bind, ret; simpl.
  - by destruct (headers h).
  - reflexivity.
Qed.

(** *** The hook *)

(** The store a successful hook call leaves behind, cell by cell. *)
Lemma webpack_ok (h : heap) (config options : val) (a : loc) (elems : list val) :
  nullish options = false →
  get h config "plugins" = VRef a →
  h !! a = Some (CArr elems) →
  ∃ d p, h !! d = None ∧ h !! p = None ∧ d ≠ p ∧
    webpack config options h =
      (Normal config,
       <[a := CArr (elems ++ [VRef p])]>
         (<[p := CObj "DefinePlugin" {[ "definitions" := VRef d ]}]>
            (<[d := CObj "Object"
                      {[ "__VUE_OPTIONS_API__" := VStr "true";
                         "__VUE_PROD_DEVTOOLS__" := VStr "false";
                         "__VUE_PROD_HYDRATION_MISMATCH_DETAILS__" := VStr "false" ]}]> h))).
Proof.
  intros Hopt Hget Ha.
  destruct (get_ref _ _ _ _ Hget) as (c & cls & props & -> & Hc & Hk).
  unfold webpack. rewrite Hopt, Hget. simpl.
  run_allocs.
  assert (l ≠ a) by (intros ->; congruence).
  assert (l0 ≠ a) by (intros ->; congruence).
  rewrite (push_array _ a elems) by (by heap_lookup).
  eauto 10.
Qed.





(** A hook call that returns has returned its first argument, and was
    handed options, a configuration and a plugins property that are neither
    undefined nor null. *)
Lemma webpack_returns (h h' : heap) (config options v : val) :
  webpack config options h = (Normal v, h') →
  v = config ∧ nullish options = false ∧ nullish config = false ∧
  nullish (get h config "plugins") = false.
Proof.
  unfold webpack.
  destruct (nullish options); [discriminate|]. simpl.
  destruct (nullish config); [discriminate|].
  destruct (nullish (get h config "plugins")); [discriminate|].
  run_allocs.
  match goal with
  | |- context [push ?t ?i ?m] => destruct (push t i m) as [[] h3]
  end; intros [= <- <-]; done.
Qed.

(** After a hook call on a plugin array the last plugin of the array
    defines the three feature flags. *)
Lemma webpack_defines (h h' : heap) (config options v : val) (a : loc)
    (elems : list val) :
  nullish options = false →
  get h config "plugins" = VRef a →
  h !! a = Some (CArr elems) →
  webpack config options h = (Normal v, h') →
  flags_after h' config = Some feature_flags.
Proof.
  intros Hopt Hget Ha Hw.
  destruct (webpack_ok h config options a elems Hopt Hget Ha)
    as (d & p & Hd & Hp & Hdp & Hw').
  rewrite Hw' in Hw. injection Hw as _ <-.
  destruct (get_ref _ _ _ _ Hget) as (c & cls & props & -> & Hc & Hk).
  assert (a ≠ c) by (intros ->; congruence).
  assert (p ≠ c) by (intros ->; congruence).
  assert (d ≠ c) by (intros ->; congruence).
  assert (a ≠ p) by (intros ->; congruence).
  assert (a ≠ d) by (intros ->; congruence).
  unfold flags_after, last_plugin, as_array, get. heap_lookup.
  rewrite last_snoc. simpl.
  unfold read_definitions, as_object. heap_lookup.
  reflexivity.
Qed.

(** ** Route sources *)

Lemma any_group_matches (p : list ascii) :
  forallb (λ c, negb (PathPattern.line_terminator c)) p = true →
  PathPattern.matches_from [PathPattern.AnyGroup] p = true.
Proof.
  induction p as [|c p IH]; intros Hp; simpl in *.
  - reflexivity.
  - apply andb_true_iff in Hp as [Hc Hp].
    rewrite Hc. simpl. by apply IH.
Qed.

Lemma catch_all_applies (hs : list Route.Header) (path : string) :
  is_request_path path = true →
  applies {| Route.source := "/(.*)"; Route.headers := hs |} path = true.
Proof.
  unfold is_request_path, applies, PathPattern.matches. simpl.
  destruct (list_ascii_of_string path) as [|c rest]; [discriminate|].
  destruct (decide (c = "/"%char)) as [->|Hc].
  - intros Hrest. rewrite bool_decide_eq_true_2 by done.
    by apply any_group_matches.
  - destruct c as [[] [] [] [] [] [] [] []]; try discriminate. done.
Qed.

(** ** Start-up and requests *)

Lemma serve_loaded (path : string) (h : heap) :
  serve true path h
  = Responds (if redirected path then ∅ else response_headers header_rules path).
Proof.
  unfold serve, module_exports, bind, ret.
  destruct (nextConfig_reads h) as [_ Hreads].
  destruct (Hreads (loaded h) (agree_on_refl _ _)) as (_ & _ & _ & Hfn & _).
  unfold loaded, exported in Hfn.
  destruct (nextConfig h) as [cfg h1]. simpl in Hfn.
  unfold run_op, call_method. rewrite Hfn.
  unfold apply_func, bind, ret.
  destruct (headers_reads h1) as (v & h2 & -> & _ & ->).
  reflexivity.
Qed.


Lemma policy_headers_set (path : string) :
  is_request_path path = true →
  response_headers header_rules path = policy_headers.
Proof.
  intros Hp. unfold response_headers, header_rules. simpl.
  rewrite (catch_all_applies _ _ Hp). reflexivity.
Qed.

(** ** Behaviour at the edges *)

Example line_terminators :
  PathPattern.line_terminator (ascii_of_nat 10) = true ∧
  PathPattern.line_terminator (ascii_of_nat 13) = true ∧
  PathPattern.reserved (ascii_of_nat 92) = true ∧
  PathPattern.line_terminator "/" = false.
Proof. repeat split. Qed.

Example catch_all_tokens :
  PathPattern.compile "/(.*)" = Some [PathPattern.Lit "/"; PathPattern.AnyGroup].
Proof. reflexivity. Qed.

(** The pattern needs the leading slash every request path has. *)
Example catch_all_needs_the_slash :
  let r := {| Route.source := "/(.*)"; Route.headers := [] |} in
  applies r "/" = true ∧ applies r "/contact" = true ∧
  applies r "" = false ∧ applies r "contact" = false.
Proof. repeat split. Qed.

Example redirected_paths :
  redirected "/contact/" = true ∧ redirected "//" = true ∧
  redirected "/a//b" = true ∧
  redirected "/" = false ∧ redirected "/contact" = false ∧
  redirected "/projects/ai-chatbot" = false.
Proof. repeat split. Qed.

(** The hook throws when it is given no options, and when the
    configuration it is given has no plugin array; the store is left as it
    was. *)
Example hook_without_options :
  webpack (VRef 1) VUndefined sample_store
  = (Throw (TypeError "Cannot destructure property 'isServer'"), sample_store).
Proof. reflexivity. Qed.

Example hook_without_plugin_array :
  webpack (VRef 3) (VRef 3) sample_store
  = (Throw (TypeError "Cannot read properties of undefined (reading 'push')"),
     sample_store).
Proof. reflexivity. Qed.

Example start_up_without_webpack :
  serve false "/" ∅ = Fails (ModuleNotFound "webpack").
Proof. reflexivity. Qed.

(** ** The claims *)

(** C1, as amended.  For every request path the framework does not
    redirect, the response carries the header Cross-Origin-Embedder-Policy
    with value unsafe-none and the header Cross-Origin-Opener-Policy with
    value same-origin-allow-popups, and this layer sets no other header on
    it.  A request path that is redirected (a trailing slash other than the
    root, two slashes in a row, a backslash) is answered with none of the
    headers of this layer. *)
Theorem every_response_not_redirected_carries_the_two_policy_headers
    (h : heap) (path : string) :
  is_request_path path = true →
  serve true path h
    = Responds (if redirected path then ∅ else policy_headers) ∧
  ∀ k v, policy_headers !! k = Some v ↔
    (k = "Cross-Origin-Embedder-Policy" ∧ v = "unsafe-none") ∨
    (k = "Cross-Origin-Opener-Policy" ∧ v = "same-origin-allow-popups").
Proof.
  intros Hp. split.
  - rewrite serve_loaded. f_equal.
    destruct (redirected path); [done|]. by apply policy_headers_set.
  - intros k v. unfold policy_headers.
    rewrite lookup_insert_Some, lookup_singleton_Some.
    split.
    + intros [[<- <-]|[Hne [<- <-]]]; auto.
    + intros [[-> ->]|[-> ->]]; [left|right]; auto.
Qed.

Lemma every_response_not_redirected_carries_the_two_policy_headers_witness :
  is_request_path "/contact" = true ∧
  serve true "/contact" ∅ = Responds policy_headers.
Proof.
  split; [reflexivity|].
  apply (every_response_not_redirected_carries_the_two_policy_headers ∅ "/contact").
  reflexivity.
Defined.

(** C1 as first stated fails: the request path "/contact/" is answered
    with a redirect that carries neither header. *)
Lemma trailing_slash_response_lacks_the_policy_headers :
  is_request_path "/contact/" = true ∧
  serve true "/contact/" ∅ = Responds ∅ ∧
  serve true "/contact/" ∅ ≠ Responds policy_headers.
Proof.
  split; [reflexivity|]. split; [reflexivity|].
  intros H. apply (f_equal (λ r, match r with
                                 | Responds hs => hs !! "Cross-Origin-Opener-Policy"
                                 | _ => None
                                 end)) in H.
  vm_compute in H. discriminate H.
Qed.



(** C5.  Image optimization is switched off, and the list of permitted
    image hosts holds exactly one hostname. *)
Theorem images_unoptimized_with_one_allowed_host (h : heap) :
  ∃ s, read_settings (loaded h) (exported h) = Some s ∧
    unoptimized s = true ∧
    domains s = ["n8n2.ibhost.online"] ∧
    length (domains s) = 1.
Proof.
  destruct (nextConfig_reads h) as [_ Hreads].
  destruct (Hreads (loaded h) (agree_on_refl _ _)) as (Hs & _).
  exists static_settings. by rewrite Hs.
Qed.

(** C7.  The build ignores lint results: whatever the number of lint
    errors, the lint step lets the build go on. *)
Theorem lint_errors_do_not_block_the_build (h : heap) (lint_errors : nat) :
  ∃ s, read_settings (loaded h) (exported h) = Some s ∧
    ignoreDuringBuilds s = true ∧
    lint_step s lint_errors = true.
Proof.
  destruct (nextConfig_reads h) as [_ Hreads].
  destruct (Hreads (loaded h) (agree_on_refl _ _)) as (Hs & _).
  exists static_settings. by rewrite Hs.
Qed.

(** C10.  The exported object has the five properties eslint, images,
    headers, experimental and webpack and no other; reading output gives
    undefined; experimental.serverComponentsExternalPackages is the one
    package name "@n8n/chat". *)
Theorem exported_object_has_five_fields_and_no_output (h : heap) :
  own_keys (loaded h) (exported h) = Some exported_fields ∧
  exported_fields = {[ "eslint"; "images"; "headers"; "experimental"; "webpack" ]} ∧
  ("output" ∉ exported_fields) ∧
  get (loaded h) (exported h) "output" = VUndefined ∧
  ∃ s, read_settings (loaded h) (exported h) = Some s ∧
    output s = None ∧
    serverComponentsExternalPackages s = ["@n8n/chat"].
Proof.
  destruct (nextConfig_reads h) as [_ Hreads].
  destruct (Hreads (loaded h) (agree_on_refl _ _)) as (Hs & Hk & Ho & _).
  split; [exact Hk|]. split; [reflexivity|].
  split; [by vm_compute|]. split; [exact Ho|].
  exists static_settings. by rewrite Hs.
Qed.

(** C8.  Calling headers() never throws and never rejects: its body has no
    suspension point, so on every store the promise it returns is already
    fulfilled when the call returns, and every existing cell is left as it
    was.  Once the module has loaded, every request is answered and none
    waits; the only failure of start-up and serving is the module failing to
    load. *)
Theorem header_attachment_has_no_error_path (h : heap) (path : string) :
  (∃ v h', headers h = (Fulfilled v, h') ∧ h ⊆ h') ∧
  (∃ hs, serve true path h = Responds hs) ∧
  (∀ b e, serve b path h = Fails e → b = false ∧ e = ModuleNotFound "webpack") ∧
  (∀ b, serve b path h ≠ Waits).
Proof.
  split.
  { destruct (headers_reads h) as (v & h' & Hcall & Hsub & _). eauto. }
  split.
  { rewrite serve_loaded. eauto. }
  split.
  - intros [] e; [by rewrite serve_loaded|].
    unfold serve, module_exports, ret. simpl. by intros [= <-].
  - intros []; [by rewrite serve_loaded|].
    unfold serve, module_exports, ret. simpl. done.
Qed.

(** C2.  A hook call that is handed a plugin array leaves as its last
    plugin a DefinePlugin holding exactly three definitions, under the names
    __VUE_OPTIONS_API__, __VUE_PROD_DEVTOOLS__ and
    __VUE_PROD_HYDRATION_MISMATCH_DETAILS__, whose code fragments are the
    boolean literals true, false and false; the bundler replaces every free
    occurrence of such a name by its literal. *)
Theorem hook_defines_the_three_boolean_flags
    (h : heap) (config options : val) (a : loc) (elems : list val) :
  nullish options = false →
  get h config "plugins" = VRef a →
  h !! a = Some (CArr elems) →
  ∃ h', webpack config options h = (Normal config, h') ∧
    flags_after h' config = Some feature_flags ∧
    bool_literal <$> feature_flags
      = {[ "__VUE_OPTIONS_API__" := Some true;
           "__VUE_PROD_DEVTOOLS__" := Some false;
           "__VUE_PROD_HYDRATION_MISMATCH_DETAILS__" := Some false ]} ∧
    ∀ (src : list lexeme) (i : nat) (name code : string),
      feature_flags !! name = Some code →
      src !! i = Some (FreeIdent name) →
      inline_definitions feature_flags src !! i = Some (Code code).
Proof.
  intros Hopt Hget Ha.
  destruct (webpack_ok h config options a elems Hopt Hget Ha)
    as (d & p & _ & _ & _ & Hw).
  eexists. split; [exact Hw|].
  split; [exact (webpack_defines _ _ _ _ _ _ _ Hopt Hget Ha Hw)|].
  split; [reflexivity|].
  intros src i name code Hname Hsrc.
  unfold inline_definitions. rewrite list_lookup_fmap, Hsrc. simpl.
  by rewrite Hname.
Qed.

Lemma hook_defines_the_three_boolean_flags_witness :
  ∃ h', webpack (VRef 1) (VRef 3) sample_store = (Normal (VRef 1), h') ∧
    flags_after h' (VRef 1) = Some feature_flags.
Proof.
  destruct (hook_defines_the_three_boolean_flags
              sample_store (VRef 1) (VRef 3) 2%positive [VRef 4]
              eq_refl eq_refl eq_refl) as (h' & Hw & Hf & _).
  exists h'. split; assumption.
Defined.

(** C9.  A hook call that is handed a plugin array returns the very
    reference it was given; the array ends up with one more element, a new
    DefinePlugin defining the three flags, after the elements it had; every
    other cell of the store, hence every property of the configuration
    object, is as before; and the outcome does not depend on the options,
    isServer included. *)
Theorem hook_appends_one_plugin_and_changes_nothing_else
    (h : heap) (config options : val) (a : loc) (elems : list val) :
  nullish options = false →
  get h config "plugins" = VRef a →
  h !! a = Some (CArr elems) →
  ∃ p h', webpack config options h = (Normal config, h') ∧
    h !! p = None ∧
    h' !! a = Some (CArr (elems ++ [VRef p])) ∧
    read_definitions h' (VRef p) = Some feature_flags ∧
    (∀ l c, h !! l = Some c → l ≠ a → h' !! l = Some c) ∧
    (∀ k, get h' config k = get h config k) ∧
    (∀ options', nullish options' = false →
       webpack config options' h = webpack config options h).
Proof.
  intros Hopt Hget Ha.
  destruct (webpack_ok h config options a elems Hopt Hget Ha)
    as (d & p & Hd & Hp & Hdp & Hw).
  assert (a ≠ p) by (intros ->; congruence).
  assert (a ≠ d) by (intros ->; congruence).
  exists p. eexists. split; [exact Hw|].
  split; [exact Hp|].
  split; [by rewrite lookup_insert_eq|].
  split.
  { unfold read_definitions, as_object. heap_lookup. reflexivity. }
  assert (∀ l c, h !! l = Some c → l ≠ a →
            <[a:=CArr (elems ++ [VRef p])]>
              (<[p:=CObj "DefinePlugin" {["definitions" := VRef d]}]>
                 (<[d:=CObj "Object"
                          {["__VUE_OPTIONS_API__" := VStr "true";
                            "__VUE_PROD_DEVTOOLS__" := VStr "false";
                            "__VUE_PROD_HYDRATION_MISMATCH_DETAILS__" := VStr "false"]}]> h))
              !! l = Some c) as Hframe.
  { intros l c Hl Hla.
    assert (p ≠ l) by (intros ->; congruence).
    assert (d ≠ l) by (intros ->; congruence).
    by heap_lookup. }
  split; [exact Hframe|].
  split.
  - intros k.
    destruct (get_ref _ _ _ _ Hget) as (c & cls & props & -> & Hc & Hk).
    assert (c ≠ a) by (intros ->; congruence).
    unfold get. by rewrite (Hframe c _ Hc), Hc.
  - intros options' Hopt'.
    destruct (webpack_ok h config options' a elems Hopt' Hget Ha)
      as (d' & p' & _ & _ & _ & Hw').
    unfold webpack in *. rewrite Hopt, Hopt' in *. exact eq_refl.
Qed.

Lemma hook_appends_one_plugin_and_changes_nothing_else_witness :
  ∃ p h', webpack (VRef 1) (VRef 3) sample_store = (Normal (VRef 1), h') ∧
    h' !! 2%positive = Some (CArr ([VRef 4] ++ [VRef p])).
Proof.
  destruct (hook_appends_one_plugin_and_changes_nothing_else
              sample_store (VRef 1) (VRef 3) 2%positive [VRef 4]
              eq_refl eq_refl eq_refl) as (p & h' & Hw & _ & Harr & _).
  exists p, h'. split; assumption.
Defined.




(** ** Further properties of the two functions *)

(** *** Reading in a larger store *)

Lemma get_weaken (h h' : heap) (o : val) (k : string) (x : val) :
  h ⊆ h' → get h o k = x → x ≠ VUndefined → get h' o k = x.
Proof.
  intros Hsub Hget Hx. unfold get in *.
  destruct o as [| | | | |l]; try done.
  destruct (h !! l) as [c|] eqn:Hl; [|done].
  by rewrite (lookup_weaken _ _ _ _ Hl Hsub).
Qed.

Lemma as_array_weaken (h h' : heap) (v : val) (elems : list val) :
  h ⊆ h' → as_array h v = Some elems → as_array h' v = Some elems.
Proof.
  intros Hsub. unfold as_array.
  destruct v as [| | | | |l]; try done.
  destruct (h !! l) as [c|] eqn:Hl; [|done].
  by rewrite (lookup_weaken _ _ _ _ Hl Hsub).
Qed.

Lemma get_string_weaken (h h' : heap) (o : val) (k s : string) :
  h ⊆ h' → as_string (get h o k) = Some s → as_string (get h' o k) = Some s.
Proof.
  intros Hsub Hs. destruct (get h o k) as [| | | | s' |] eqn:Hget; try done.
  by rewrite (get_weaken _ _ _ _ _ Hsub Hget).
Qed.

Lemma get_array_weaken (h h' : heap) (o : val) (k : string) (elems : list val) :
  h ⊆ h' → as_array h (get h o k) = Some elems →
  as_array h' (get h' o k) = Some elems.
Proof.
  intros Hsub Ha. destruct (get h o k) as [| | | | |l] eqn:Hget; try done.
  rewrite (get_weaken _ _ _ _ _ Hsub Hget) by done.
  by eapply as_array_weaken.
Qed.

Lemma read_header_weaken (h h' : heap) (v : val) (hd : Route.Header) :
  h ⊆ h' → read_header h v = Some hd → read_header h' v = Some hd.
Proof.
  intros Hsub. unfold read_header. intros Hr.
  destruct (as_string (get h v "key")) as [k|] eqn:Hk; [|done].
  destruct (as_string (get h v "value")) as [x|] eqn:Hx; [|done].
  by rewrite (get_string_weaken _ _ _ _ _ Hsub Hk),
             (get_string_weaken _ _ _ _ _ Hsub Hx).
Qed.

Lemma mapM_weaken {A B} (f g : A → option B) (l : list A) (k : list B) :
  (∀ x y, f x = Some y → g x = Some y) →
  mapM f l = Some k → mapM g l = Some k.
Proof.
  intros Hfg. rewrite !mapM_Some. intros HF.
  eapply Forall2_impl; [exact HF|exact Hfg].
Qed.

Lemma read_rule_weaken (h h' : heap) (v : val) (r : Route.Rule) :
  h ⊆ h' → read_rule h v = Some r → read_rule h' v = Some r.
Proof.
  intros Hsub. unfold read_rule. intros Hr.
  destruct (as_string (get h v "source")) as [s|] eqn:Hs; [|done].
  destruct (as_array h (get h v "headers")) as [hs|] eqn:Hh; [|done].
  simpl in Hr.
  destruct (mapM (read_header h) hs) as [hs'|] eqn:Hm; [|done].
  rewrite (get_string_weaken _ _ _ _ _ Hsub Hs),
          (get_array_weaken _ _ _ _ _ Hsub Hh). simpl.
  by rewrite (mapM_weaken _ (read_header h') _ _
                (λ x y, read_header_weaken h h' x y Hsub) Hm).
Qed.

Lemma read_rules_weaken (h h' : heap) (v : val) (rs : list Route.Rule) :
  h ⊆ h' → read_rules h v = Some rs → read_rules h' v = Some rs.
Proof.
  intros Hsub. unfold read_rules. intros Hr.
  destruct (as_array h v) as [els|] eqn:Ha; [|done].
  rewrite (as_array_weaken _ _ _ _ Hsub Ha). simpl in *.
  by apply (mapM_weaken (read_rule h)); [intros x y; apply read_rule_weaken|].
Qed.

Lemma headers_fresh (h : heap) :
  ∃ r h', headers h = (Fulfilled (VRef r), h') ∧
    h !! r = None ∧ is_Some (h' !! r) ∧ h ⊆ h' ∧
    read_rules h' (VRef r) = Some header_rules.
Proof.
  unfold headers. run_allocs.
  eexists _, _. split; [reflexivity|].
  split; [done|]. split; [heap_lookup; eauto|].
  split.
  { repeat (etrans; [|apply insert_subseteq; heap_lookup; done]). done. }
  unfold read_rules, read_rule, read_header, as_array, get.
  heap_lookup. reflexivity.
Qed.

(** X4.  Every call of headers() builds its result out of new cells: the
    array it resolves to was not in the store before, it keeps reading as
    the one rule in every larger store, and a second call resolves to a
    different array while the first result still reads the same. *)
Theorem headers_results_are_new_and_independent (h : heap) :
  ∃ r h', headers h = (Fulfilled (VRef r), h') ∧
    h !! r = None ∧
    (∀ h'', h' ⊆ h'' → read_rules h'' (VRef r) = Some header_rules) ∧
    ∃ r2 h2, headers h' = (Fulfilled (VRef r2), h2) ∧
      r2 ≠ r ∧
      read_rules h2 (VRef r) = Some header_rules ∧
      read_rules h2 (VRef r2) = Some header_rules.
Proof.
  destruct (headers_fresh h) as (r & h' & Hcall & Hnew & Hr & Hsub & Hrules).
  exists r, h'. split; [exact Hcall|]. split; [exact Hnew|].
  split.
  { intros h'' Hsub'. by eapply read_rules_weaken. }
  destruct (headers_fresh h') as (r2 & h2 & Hcall2 & Hnew2 & _ & Hsub2 & Hrules2).
  exists r2, h2. split; [exact Hcall2|].
  split.
  { intros ->. rewrite Hnew2 in Hr. by destruct Hr. }
  split; [by eapply read_rules_weaken|exact Hrules2].
Qed.

(** X1.  When the hook returns, it returns the configuration it was
    given, and its options, the configuration and the plugins property were
    neither undefined nor null.  It returns when the plugins property is an
    ordinary array, and also when it is an object whose push property is
    the headers function of this module; it throws when the plugins
    property is an array that takes no new element. *)
Theorem hook_returns_its_config_and_only_with_options_and_plugins
    (h : heap) (config options : val) :
  (∀ v h', webpack config options h = (Normal v, h') →
     v = config ∧ nullish options = false ∧ nullish config = false ∧
     nullish (get h config "plugins") = false) ∧
  (∀ a elems, nullish options = false → get h config "plugins" = VRef a →
     h !! a = Some (CArr elems) →
     ∃ h', webpack config options h = (Normal config, h')) ∧
  (∀ a cls props, nullish options = false → get h config "plugins" = VRef a →
     h !! a = Some (CObj cls props) →
     as_func h (default VUndefined (props !! "push")) = Some fn_headers →
     ∃ h', webpack config options h = (Normal config, h') ∧ h ⊆ h') ∧
  (∀ a elems, nullish options = false → get h config "plugins" = VRef a →
     h !! a = Some (CFrozenArr elems) →
     ∃ msg h', webpack config options h = (Throw (TypeError msg), h')).
Proof.
  split; [intros v h' Hw; by eapply webpack_returns|].
  split.
  { intros a elems Hopt Hget Ha.
    destruct (webpack_ok h config options a elems Hopt Hget Ha)
      as (d & p & _ & _ & _ & Hw).
    eauto. }
  split.
  - intros a cls props Hopt Hget Ha Hf.
    destruct (get_ref _ _ _ _ Hget) as (c & cls' & props' & -> & Hc & Hk).
    unfold webpack. rewrite Hopt, Hget. simpl. run_allocs.
    assert (l ≠ a) by (intros ->; congruence).
    assert (l0 ≠ a) by (intros ->; congruence).
    unfold as_func in Hf.
    destruct (default VUndefined (props !! "push")) as [| | | | |f] eqn:Hpush;
      try discriminate.
    destruct (h !! f) as [[| | |g]|] eqn:Hg; try discriminate.
    injection Hf as ->.
    assert (l ≠ f) by (intros ->; congruence).
    assert (l0 ≠ f) by (intros ->; congruence).
    match goal with
    | |- context [push _ ?i ?m] =>
        rewrite (push_calls_the_property m a cls props fn_headers i);
        [ unfold apply_func, bind, ret;
          destruct (headers_reads m) as (v & h' & -> & Hsub & _)
        | by heap_lookup
        | rewrite Hpush; unfold as_func; by heap_lookup ]
    end.
    eexists. split; [reflexivity|].
    etrans; [|exact Hsub].
    repeat (etrans; [|apply insert_subseteq; heap_lookup; done]). done.
  - intros a elems Hopt Hget Ha.
    destruct (get_ref _ _ _ _ Hget) as (c & cls' & props' & -> & Hc & Hk).
    unfold webpack. rewrite Hopt, Hget. simpl. run_allocs.
    assert (l ≠ a) by (intros ->; congruence).
    assert (l0 ≠ a) by (intros ->; congruence).
    unfold push. heap_lookup. eauto.
Qed.



(** *** Calling the hook again *)

(** A plugin that reads as a set of definitions still does after the cell
    of an array has changed. *)
Lemma read_definitions_frame (h h' : heap) (a : loc) (elems : list val)
    (p : val) (defs : gmap string string) :
  h !! a = Some (CArr elems) →
  (∀ l c, h !! l = Some c → l ≠ a → h' !! l = Some c) →
  read_definitions h p = Some defs →
  read_definitions h' p = Some defs.
Proof.
  intros Ha Hframe. unfold read_definitions, as_object.
  destruct p as [| | | | |lp]; try done.
  destruct (h !! lp) as [[cls props| | |]|] eqn:Hp; try done.
  assert (lp ≠ a) by (intros ->; congruence).
  rewrite (Hframe _ _ Hp) by done.
  destruct (decide (cls = "DefinePlugin")); [|done].
  destruct (default VUndefined (props !! "definitions")) as [| | | | |ld]; try done.
  destruct (h !! ld) as [[cls' props'| | |]|] eqn:Hd; try done.
  assert (ld ≠ a) by (intros ->; congruence).
  by rewrite (Hframe _ _ Hd).
Qed.

Lemma read_definitions_present (h : heap) (l : loc) (defs : gmap string string) :
  read_definitions h (VRef l) = Some defs → is_Some (h !! l).
Proof.
  unfold read_definitions, as_object.
  destruct (h !! l); [eauto|done].
Qed.

Lemma hook_calls_accumulate (h : heap) (config options : val) (a : loc)
    (elems : list val) (n : nat) :
  nullish options = false →
  get h config "plugins" = VRef a →
  h !! a = Some (CArr elems) →
  ∃ ps, length ps = n ∧ NoDup ps ∧
    hook_calls n config options h !! a = Some (CArr (elems ++ ps)) ∧
    (∀ l c, h !! l = Some c → l ≠ a →
       hook_calls n config options h !! l = Some c) ∧
    Forall (λ p, read_definitions (hook_calls n config options h) p
                 = Some feature_flags) ps ∧
    Forall (λ p, ∃ l, p = VRef l ∧ h !! l = None) ps.
Proof.
  intros Hopt Hget Ha.
  destruct (get_ref _ _ _ _ Hget) as (c & cls & props & -> & Hc & Hk).
  assert (c ≠ a) as Hca by (intros ->; congruence).
  induction n as [|n IH].
  - exists []. simpl. rewrite app_nil_r.
    repeat split; auto using NoDup_nil_2.
  - destruct IH as (ps & Hlen & Hnd & Harr & Hframe & Hdefs & Hnew).
    unfold hook_calls in *. simpl.
    set (hn := Nat.iter n (λ h', (webpack (VRef c) options h').2) h) in *.
    assert (get hn (VRef c) "plugins" = VRef a) as Hget'.
    { unfold get. rewrite (Hframe _ _ Hc Hca). by rewrite Hk. }
    destruct (webpack_ok hn (VRef c) options a (elems ++ ps) Hopt Hget' Harr)
      as (d & p & Hd & Hp & Hdp & Hw).
    rewrite Hw. simpl.
    assert (a ≠ p) by (intros ->; congruence).
    assert (a ≠ d) by (intros ->; congruence).
    assert (∀ l x, hn !! l = Some x → l ≠ a →
              <[a:=CArr ((elems ++ ps) ++ [VRef p])]>
                (<[p:=CObj "DefinePlugin" {["definitions" := VRef d]}]>
                   (<[d:=CObj "Object"
                            {["__VUE_OPTIONS_API__" := VStr "true";
                              "__VUE_PROD_DEVTOOLS__" := VStr "false";
                              "__VUE_PROD_HYDRATION_MISMATCH_DETAILS__" := VStr "false"]}]> hn))
                !! l = Some x) as Hstep.
    { intros l x Hl Hla.
      assert (p ≠ l) by (intros ->; congruence).
      assert (d ≠ l) by (intros ->; congruence).
      by heap_lookup. }
    exists (ps ++ [VRef p])%list.
    split; [rewrite length_app; simpl; lia|].
    split.
    { apply NoDup_app. split; [done|]. split; [|apply NoDup_singleton].
      intros q Hq Hq'. apply list_elem_of_singleton in Hq'. subst q.
      rewrite Forall_forall in Hdefs.
      apply Hdefs, read_definitions_present in Hq.
      rewrite Hp in Hq. by destruct Hq. }
    split; [by rewrite lookup_insert_eq, app_assoc|].
    split.
    { intros l x Hl Hla. apply Hstep; [|done]. by apply Hframe. }
    split.
    { apply Forall_app. split.
      - eapply Forall_impl; [exact Hdefs|].
        intros q Hq. eapply read_definitions_frame; [exact Harr|exact Hstep|exact Hq].
      - apply Forall_singleton.
        unfold read_definitions, as_object. heap_lookup. reflexivity. }
    apply Forall_app. split; [done|].
    apply Forall_singleton. exists p. split; [done|].
    destruct (h !! p) as [x|] eqn:Hhp; [|done].
    rewrite (Hframe _ _ Hhp) in Hp by done. done.
Qed.

(** X3.  The hook is not idempotent.  After n calls in a row on one
    configuration, its plugin array holds the elements it had followed by n
    plugins, all different and all new to the store, each a DefinePlugin
    with the three flags; no other cell that was in the store has changed. *)
Theorem repeated_hook_calls_append_one_plugin_each
    (h : heap) (config options : val) (a : loc) (elems : list val) (n : nat) :
  nullish options = false →
  get h config "plugins" = VRef a →
  h !! a = Some (CArr elems) →
  ∃ ps, length ps = n ∧ NoDup ps ∧
    as_array (hook_calls n config options h)
             (get (hook_calls n config options h) config "plugins")
      = Some (elems ++ ps)%list ∧
    Forall (λ p, read_definitions (hook_calls n config options h) p
                 = Some feature_flags) ps ∧
    Forall (λ p, ∃ l, p = VRef l ∧ h !! l = None) ps ∧
    (∀ l c, h !! l = Some c → l ≠ a →
       hook_calls n config options h !! l = Some c).
Proof.
  intros Hopt Hget Ha.
  destruct (hook_calls_accumulate h config options a elems n Hopt Hget Ha)
    as (ps & Hlen & Hnd & Harr & Hframe & Hdefs & Hnew).
  exists ps. repeat (split; [done|]).
  split; [|done].
  destruct (get_ref _ _ _ _ Hget) as (c & cls & props & -> & Hc & Hk).
  assert (c ≠ a) as Hca by (intros ->; congruence).
  unfold as_array, get. rewrite (Hframe _ _ Hc Hca), Hk. simpl.
  by rewrite Harr.
Qed.

Lemma repeated_hook_calls_append_one_plugin_each_witness :
  ∃ ps, length ps = 3 ∧
    as_array (hook_calls 3 (VRef 1) (VRef 3) sample_store)
             (get (hook_calls 3 (VRef 1) (VRef 3) sample_store) (VRef 1) "plugins")
      = Some ([VRef 4] ++ ps)%list.
Proof.
  destruct (repeated_hook_calls_append_one_plugin_each
              sample_store (VRef 1) (VRef 3) 2%positive [VRef 4] 3
              eq_refl eq_refl eq_refl) as (ps & Hlen & _ & Harr & _).
  exists ps. split; assumption.
Defined.



(** *** What evaluating the module creates *)

Lemma elem_of_config_cells (h : heap) (l : loc) :
  l ∈ config_cells h ↔ h !! l = None ∧ is_Some (loaded h !! l).
Proof.
  unfold config_cells.
  rewrite elem_of_difference, elem_of_dom, not_elem_of_dom. tauto.
Qed.

Lemma config_cells_size (h : heap) : size (config_cells h) = 8.
Proof.
  unfold config_cells.
  rewrite size_difference by (apply subseteq_dom, nextConfig_reads).
  rewrite !size_dom.
  unfold loaded, nextConfig. run_allocs. simpl.
  rewrite !map_size_insert_None by (heap_lookup; done).
  generalize (size h). clear. intros n. lia.
Qed.

(** Split a lookup in a store built by insertions into its cases. *)
Ltac lookup_cases H :=
  repeat (rewrite lookup_insert_Some in H;
          destruct H as [[<- <-]|[? H]]).

(** X6.  Evaluating the object literal changes no cell that was in the
    store and creates eight cells: four plain objects, one of them the
    exported object, two ordinary arrays, and the two functions headers and
    webpack.  The structure is closed: a cell it created refers only to
    cells it created. *)
Theorem evaluation_creates_a_closed_structure_of_eight_cells (h : heap) :
  h ⊆ loaded h ∧
  size (config_cells h) = 8 ∧
  (∃ objs arrs hd wp,
      length objs = 4 ∧ length arrs = 2 ∧
      NoDup (objs ++ arrs ++ [hd; wp]) ∧
      (∀ l, l ∈ config_cells h ↔ l ∈ (objs ++ arrs ++ [hd; wp])%list) ∧
      Forall (λ l, ∃ props, loaded h !! l = Some (CObj "Object" props)) objs ∧
      Forall (λ l, ∃ elems, loaded h !! l = Some (CArr elems)) arrs ∧
      loaded h !! hd = Some (CFun fn_headers) ∧
      loaded h !! wp = Some (CFun fn_webpack) ∧
      ∃ c, exported h = VRef c ∧ c ∈ objs) ∧
  (∀ l x r, l ∈ config_cells h → loaded h !! l = Some x → refers x r →
     r ∈ config_cells h).
Proof.
  split; [apply nextConfig_reads|].
  split; [apply config_cells_size|].
  setoid_rewrite elem_of_config_cells.
  unfold loaded, exported, nextConfig. run_allocs. simpl.
  split.
  { exists [l6; l4; l1; l], [l3; l0], l2, l5. simpl.
    split; [done|]. split; [done|].
    split.
    { repeat (apply NoDup_cons_2;
              [rewrite ?not_elem_of_cons; repeat split;
               try differ; apply not_elem_of_nil|]).
      apply NoDup_nil_2. }
    split.
    { intros l'. rewrite !elem_of_cons, elem_of_nil. split.
      - intros [Hnew [x Hx]].
        lookup_cases Hx; try (rewrite Hnew in Hx; discriminate); tauto.
      - intros Hin.
        repeat (destruct Hin as [->|Hin]); try done;
          (split; [done|heap_lookup; eauto]). }
    split.
    { repeat (apply Forall_cons; split; [heap_lookup; eauto|]).
      apply Forall_nil_2. }
    split.
    { repeat (apply Forall_cons; split; [heap_lookup; eauto|]).
      apply Forall_nil_2. }
    split; [by heap_lookup|]. split; [by heap_lookup|].
    exists l6. split; [done|]. apply list_elem_of_here. }
  intros l' x r [Hnew _] Hx Hr.
  lookup_cases Hx; simpl in Hr;
    try (rewrite Hnew in Hx; discriminate);
    try done;
    try (apply list_elem_of_singleton in Hr; discriminate);
    destruct Hr as [k Hk];
    repeat (rewrite lookup_insert_Some in Hk; destruct Hk as [[_ Hv]|[_ Hk]]);
    try (apply lookup_singleton_Some in Hk as [_ Hv]);
    try discriminate Hv;
    injection Hv as <-;
    (split; [done|heap_lookup; eauto]).
Qed.
